(** * Sphere intersection scene: the geometry computed by [Scene]

    The repository draws three spheres centred at three fixed anchors, all
    passing through one movable point, the circle in which the first two
    spheres meet and the points common to all three.  The computation is the
    body of the second [useMemo] callback of [Scene]; it is embedded here
    once, over an abstract interface of JavaScript numbers, and instantiated

    - at the real numbers (exact arithmetic), where the geometric statements
      are proved, and
    - at IEEE-754 binary64 (the arithmetic the program really runs), where the
      computation can be evaluated on concrete inputs.

    The methods of [THREE.Vector3] come from the three.js library; they are
    written out from its sources ([Vector3.js]), operation by operation and in
    the same order of floating-point operations. *)

From Stdlib Require Import Uint63 PrimFloat.
From Stdlib Require Import ZArith List Bool Lia.
From Stdlib Require Import Reals Lra Psatz.
Import ListNotations.

Set Implicit Arguments.

(** ** JavaScript numbers *)

(** The operations on [number] that the source uses. *)
Class Number (num : Type) := {
  nlit : Z -> num;              (* an integer literal *)
  neps : num;                   (* the literal 1e-6 *)
  nadd : num -> num -> num;
  nsub : num -> num -> num;
  nmul : num -> num -> num;
  ndiv : num -> num -> num;
  nneg : num -> num;
  nsqrt : num -> num;           (* Math.sqrt *)
  nabs : num -> num;            (* Math.abs *)
  nmax : num -> num -> num;     (* Math.max *)
  nlt : num -> num -> bool;     (* a < b *)
  nle : num -> num -> bool;     (* a <= b *)
  ntruthy : num -> bool         (* ToBoolean, as used by || *)
}.

Declare Scope num_scope.
Delimit Scope num_scope with num.
Notation "a + b" := (nadd a b) : num_scope.
Notation "a - b" := (nsub a b) : num_scope.
Notation "a * b" := (nmul a b) : num_scope.
Notation "a / b" := (ndiv a b) : num_scope.
Notation "- a" := (nneg a) : num_scope.
Notation "a <? b" := (nlt a b) (at level 70, no associativity) : num_scope.
Notation "a >? b" := (nlt b a) (at level 70, no associativity) : num_scope.
Notation "a >=? b" := (nle b a) (at level 70, no associativity) : num_scope.

(** *** Exact arithmetic *)

Definition Rltb (a b : R) : bool := if Rlt_dec a b then true else false.
Definition Rleb (a b : R) : bool := if Rle_dec a b then true else false.
Definition Rtruthy (a : R) : bool := if Req_dec_T a 0 then false else true.

#[export] Instance ideal : Number R := {
  nlit := IZR;
  neps := (1 / 1000000)%R;
  nadd := Rplus;
  nsub := Rminus;
  nmul := Rmult;
  ndiv := Rdiv;
  nneg := Ropp;
  nsqrt := sqrt;
  nabs := Rabs;
  nmax := Rmax;
  nlt := Rltb;
  nle := Rleb;
  ntruthy := Rtruthy
}.

(** *** IEEE-754 binary64 *)

Definition float_lit (z : Z) : float :=
  match z with
  | Zneg p => PrimFloat.opp (PrimFloat.of_uint63 (Uint63.of_Z (Zpos p)))
  | _ => PrimFloat.of_uint63 (Uint63.of_Z z)
  end.

(** [Math.max]: NaN if either argument is NaN, and [+0] is larger than [-0]. *)
Definition float_max (a b : float) : float :=
  if PrimFloat.is_nan a || PrimFloat.is_nan b then PrimFloat.nan
  else if PrimFloat.ltb a b then b
  else if PrimFloat.ltb b a then a
  else if PrimFloat.is_zero a then PrimFloat.add a b
  else a.

(** [ToBoolean]: [0], [-0] and NaN are falsy. *)
Definition float_truthy (a : float) : bool :=
  negb (PrimFloat.is_zero a || PrimFloat.is_nan a).

#[export] Instance binary64 : Number float := {
  nlit := float_lit;
  neps := 0x1.0c6f7a0b5ed8dp-20%float;   (* the double nearest to 1e-6 *)
  nadd := PrimFloat.add;
  nsub := PrimFloat.sub;
  nmul := PrimFloat.mul;
  ndiv := PrimFloat.div;
  nneg := PrimFloat.opp;
  nsqrt := PrimFloat.sqrt;
  nabs := PrimFloat.abs;
  nmax := float_max;
  nlt := PrimFloat.ltb;
  nle := PrimFloat.leb;
  ntruthy := float_truthy
}.

(** ** Vectors *)

Record Vector3 (num : Type) := mkVector3 { vx : num; vy : num; vz : num }.

(** [Point3D] of [types.ts]: the three coordinates chosen with the sliders. *)
Record Point3D (num : Type) := mkPoint3D { px : num; py : num; pz : num }.

Section Vector3Methods.
Context {num : Type} `{Number num}.
Local Open Scope num_scope.

Local Abbreviation vec := (Vector3 num).

(** [new THREE.Vector3()] *)
Definition newVector3 : vec := mkVector3 (nlit 0) (nlit 0) (nlit 0).

Definition lengthSq (v : vec) : num :=
  vx v * vx v + vy v * vy v + vz v * vz v.

Definition length (v : vec) : num :=
  nsqrt (vx v * vx v + vy v * vy v + vz v * vz v).

Definition distanceToSquared (this v : vec) : num :=
  let dx := vx this - vx v in
  let dy := vy this - vy v in
  let dz := vz this - vz v in
  dx * dx + dy * dy + dz * dz.

Definition distanceTo (this v : vec) : num :=
  nsqrt (distanceToSquared this v).

Definition dot (this v : vec) : num :=
  vx this * vx v + vy this * vy v + vz this * vz v.

(** The methods below overwrite their receiver and return it; each is given
    by the value the receiver holds afterwards. *)

Definition subVectors (a b : vec) : vec :=
  mkVector3 (vx a - vx b) (vy a - vy b) (vz a - vz b).

Definition addVectors (a b : vec) : vec :=
  mkVector3 (vx a + vx b) (vy a + vy b) (vz a + vz b).

Definition crossVectors (a b : vec) : vec :=
  mkVector3 (vy a * vz b - vz a * vy b)
            (vz a * vx b - vx a * vz b)
            (vx a * vy b - vy a * vx b).

Definition copy (v : vec) : vec := mkVector3 (vx v) (vy v) (vz v).

Definition add (this v : vec) : vec :=
  mkVector3 (vx this + vx v) (vy this + vy v) (vz this + vz v).

Definition multiplyScalar (this : vec) (scalar : num) : vec :=
  mkVector3 (vx this * scalar) (vy this * scalar) (vz this * scalar).

Definition divideScalar (this : vec) (scalar : num) : vec :=
  multiplyScalar this (nlit 1 / scalar).

(** [this.divideScalar(this.length() || 1)] *)
Definition normalize (this : vec) : vec :=
  let l := length this in
  divideScalar this (if ntruthy l then l else nlit 1).

Definition addScaledVector (this v : vec) (s : num) : vec :=
  mkVector3 (vx this + vx v * s) (vy this + vy v * s) (vz this + vz v * s).
End Vector3Methods.

(** ** The scene's geometry *)

(** The circle record built by the source.  [exists] is a keyword here, so the
    field is [circle_exists].  The source stores the orientation as the
    quaternion [setFromUnitVectors(defaultNormal, planeNormal)], used only to
    draw the disc; the record keeps the normal that this rotation gives to the
    disc: [defaultNormal] under the identity quaternion, [planeNormal]
    otherwise. *)
Record Circle (num : Type) := mkCircle {
  circle_exists : bool;
  center : Vector3 num;
  radius : num;
  normal : Vector3 num
}.

Record GeometryResult (num : Type) := mkGeometryResult {
  radiusTop : num;
  radiusLeft : num;
  radiusFront : num;
  intersectionCircle : Circle num;
  intersectionPoints : list (Vector3 num)
}.

Section Scene.
Context {num : Type} `{Number num}.
Local Open Scope num_scope.

Definition TOP_POINT_POS : Vector3 num := mkVector3 (nlit 0) (nlit 8) (nlit 0).
Definition LEFT_POINT_POS : Vector3 num := mkVector3 (nlit (-8)) (nlit 0) (nlit 0).
Definition FRONT_POINT_POS : Vector3 num := mkVector3 (nlit 0) (nlit 0) (nlit 8).

Definition defaultNormal : Vector3 num := mkVector3 (nlit 0) (nlit 0) (nlit 1).

Variable movablePoint : Point3D num.

Definition movablePointVec : Vector3 num :=
  mkVector3 (px movablePoint) (py movablePoint) (pz movablePoint).

(** Radii calculation *)
Definition rTop : num := distanceTo TOP_POINT_POS movablePointVec.
Definition rLeft : num := distanceTo LEFT_POINT_POS movablePointVec.
Definition rFront : num := distanceTo FRONT_POINT_POS movablePointVec.

(** Sphere-sphere intersection (for the circle) *)
Definition c1 : Vector3 num := TOP_POINT_POS.
Definition c2 : Vector3 num := LEFT_POINT_POS.
Definition r1 : num := rTop.
Definition r2 : num := rLeft.
Definition d_12 : num := distanceTo c1 c2.

Definition a : num := (r1 * r1 - r2 * r2 + d_12 * d_12) / (nlit 2 * d_12).
Definition h : num := nsqrt (nmax (nlit 0) (r1 * r1 - a * a)).
Definition direction : Vector3 num := normalize (subVectors c2 c1).
Definition center_ : Vector3 num := add (copy c1) (multiplyScalar direction a).
Definition planeNormal : Vector3 num := normalize (subVectors c2 c1).

Definition circleResult : Circle num :=
  if (d_12 <? r1 + r2) && (d_12 >? nabs (r1 - r2))
  then mkCircle true center_ h planeNormal
  else mkCircle false newVector3 (nlit 0) defaultNormal.

(** Three-sphere intersection (for the points) *)
Definition c3 : Vector3 num := FRONT_POINT_POS.
Definition r3 : num := rFront.

Definition n_A : Vector3 num := subVectors c2 c1.
Definition d_A : num := (r1 * r1 - r2 * r2 - lengthSq c1 + lengthSq c2) / nlit 2.
Definition n_B : Vector3 num := subVectors c3 c1.
Definition d_B : num := (r1 * r1 - r3 * r3 - lengthSq c1 + lengthSq c3) / nlit 2.

Definition L_dir : Vector3 num := crossVectors n_A n_B.
Definition L_dir_sq : num := lengthSq L_dir.

Definition tmp1 : Vector3 num := multiplyScalar (crossVectors n_B L_dir) d_A.
Definition tmp2 : Vector3 num := multiplyScalar (crossVectors L_dir n_A) d_B.
Definition L_p0 : Vector3 num := divideScalar (addVectors tmp1 tmp2) L_dir_sq.

Definition delta_p : Vector3 num := subVectors L_p0 c1.

Definition A : num := L_dir_sq.
Definition B : num := nlit 2 * dot delta_p L_dir.
Definition C : num := lengthSq delta_p - r1 * r1.

Definition discriminant : num := B * B - nlit 4 * A * C.

Definition sqrt_disc : num := nsqrt discriminant.
Definition t1 : num := (- B + sqrt_disc) / (nlit 2 * A).
Definition t2 : num := (- B - sqrt_disc) / (nlit 2 * A).
Definition p1 : Vector3 num := addScaledVector (copy L_p0) L_dir t1.
Definition p2 : Vector3 num := addScaledVector (copy L_p0) L_dir t2.

Definition pointsResult : list (Vector3 num) :=
  if L_dir_sq >? neps then
    if discriminant >=? nlit 0 then
      p1 :: (if discriminant >? neps then [p2] else [])
    else []
  else [].

(** The value returned by the callback. *)
Definition computeGeometry : GeometryResult num :=
  mkGeometryResult rTop rLeft rFront circleResult pointsResult.
End Scene.

(** ** The callback over the objects it shares

    [THREE.Vector3] objects are mutable, and most of their methods overwrite the
    receiver.  The callback closes over four objects that outlive it: the three
    module-level anchors and the memoised [movablePointVec].  To see what an
    invocation does to them, the callback is written a second time over a store
    of objects, one method call per step; the vectors it creates with [new] live
    in a frame of its own. *)

Inductive ref : Type :=
| Ref_TOP
| Ref_LEFT
| Ref_FRONT
| Ref_movable
| Ref_local (n : nat).

Record Captured (num : Type) := mkCaptured {
  cell_TOP : Vector3 num;
  cell_LEFT : Vector3 num;
  cell_FRONT : Vector3 num;
  cell_movable : Vector3 num
}.

Record Mem (num : Type) := mkMem {
  captured : Captured num;
  frame : list (Vector3 num)
}.

Fixpoint list_set {X : Type} (n : nat) (x : X) (l : list X) : list X :=
  match l, n with
  | [], _ => []
  | _ :: l', O => x :: l'
  | y :: l', S n' => y :: list_set n' x l'
  end.

Definition M (num A : Type) : Type := Mem num -> A * Mem num.

Definition ret {num A : Type} (x : A) : M num A := fun m => (x, m).

Definition bind {num A B : Type} (c : M num A) (k : A -> M num B) : M num B :=
  fun m => let (x, m') := c m in k x m'.

Notation "x <- c ;; k" := (bind c (fun x => k))
  (at level 61, c at next level, right associativity).
Notation "c ;;; k" := (bind c (fun _ => k))
  (at level 61, right associativity).

Section Objects.
Context {num : Type} `{Number num}.
Local Open Scope num_scope.

Definition read (r : ref) : M num (Vector3 num) :=
  fun m =>
    (match r with
     | Ref_TOP => cell_TOP (captured m)
     | Ref_LEFT => cell_LEFT (captured m)
     | Ref_FRONT => cell_FRONT (captured m)
     | Ref_movable => cell_movable (captured m)
     | Ref_local n => nth n (frame m) newVector3
     end, m).

Definition write (r : ref) (v : Vector3 num) : M num unit :=
  fun m =>
    let g := captured m in
    (tt,
     match r with
     | Ref_TOP =>
         mkMem (mkCaptured v (cell_LEFT g) (cell_FRONT g) (cell_movable g)) (frame m)
     | Ref_LEFT =>
         mkMem (mkCaptured (cell_TOP g) v (cell_FRONT g) (cell_movable g)) (frame m)
     | Ref_FRONT =>
         mkMem (mkCaptured (cell_TOP g) (cell_LEFT g) v (cell_movable g)) (frame m)
     | Ref_movable =>
         mkMem (mkCaptured (cell_TOP g) (cell_LEFT g) (cell_FRONT g) v) (frame m)
     | Ref_local n => mkMem g (list_set n v (frame m))
     end).

(** [new THREE.Vector3(x, y, z)] *)
Definition new_Vector3 (x y z : num) : M num ref :=
  fun m =>
    (Ref_local (List.length (frame m)),
     mkMem (captured m) (frame m ++ [mkVector3 x y z])).

(** Methods that only read. *)
Definition o_distanceTo (this v : ref) : M num num :=
  a <- read this ;; b <- read v ;; ret (distanceTo a b).

Definition o_lengthSq (this : ref) : M num num :=
  a <- read this ;; ret (lengthSq a).

Definition o_dot (this v : ref) : M num num :=
  a <- read this ;; b <- read v ;; ret (dot a b).

(** Methods that overwrite [this] and return it. *)
Definition o_subVectors (this a b : ref) : M num ref :=
  va <- read a ;; vb <- read b ;; write this (subVectors va vb) ;;; ret this.

Definition o_addVectors (this a b : ref) : M num ref :=
  va <- read a ;; vb <- read b ;; write this (addVectors va vb) ;;; ret this.

Definition o_crossVectors (this a b : ref) : M num ref :=
  va <- read a ;; vb <- read b ;; write this (crossVectors va vb) ;;; ret this.

Definition o_copy (this v : ref) : M num ref :=
  vv <- read v ;; write this (copy vv) ;;; ret this.

Definition o_add (this v : ref) : M num ref :=
  vt <- read this ;; vv <- read v ;; write this (add vt vv) ;;; ret this.

Definition o_multiplyScalar (this : ref) (scalar : num) : M num ref :=
  vt <- read this ;; write this (multiplyScalar vt scalar) ;;; ret this.

Definition o_divideScalar (this : ref) (scalar : num) : M num ref :=
  o_multiplyScalar this (nlit 1 / scalar).

Definition o_normalize (this : ref) : M num ref :=
  vt <- read this ;;
  let l := length vt in
  o_divideScalar this (if ntruthy l then l else nlit 1).

Definition o_addScaledVector (this v : ref) (s : num) : M num ref :=
  vt <- read this ;; vv <- read v ;; write this (addScaledVector vt vv s) ;;; ret this.

(** What the callback returns: numbers, and references to the vectors it made. *)
Record CircleRef := mkCircleRef {
  ref_exists : bool;
  ref_center : ref;
  ref_radius : num;
  ref_normal : Vector3 num
}.

Record GeometryRef := mkGeometryRef {
  ref_radiusTop : num;
  ref_radiusLeft : num;
  ref_radiusFront : num;
  ref_intersectionCircle : CircleRef;
  ref_intersectionPoints : list ref
}.

Definition circle_branch (c1 c2 : ref) (r1 r2 d_12 : num) (circleResult : CircleRef)
  : M num CircleRef :=
  if (d_12 <? r1 + r2) && (d_12 >? nabs (r1 - r2)) then
    let a := (r1 * r1 - r2 * r2 + d_12 * d_12) / (nlit 2 * d_12) in
    let h := nsqrt (nmax (nlit 0) (r1 * r1 - a * a)) in
    v <- new_Vector3 (nlit 0) (nlit 0) (nlit 0) ;;
    v <- o_subVectors v c2 c1 ;;
    direction <- o_normalize v ;;
    v <- new_Vector3 (nlit 0) (nlit 0) (nlit 0) ;;
    v <- o_copy v c1 ;;
    scaled <- o_multiplyScalar direction a ;;
    center <- o_add v scaled ;;
    defaultNormal <- new_Vector3 (nlit 0) (nlit 0) (nlit 1) ;;
    v <- new_Vector3 (nlit 0) (nlit 0) (nlit 0) ;;
    v <- o_subVectors v c2 c1 ;;
    planeNormal <- o_normalize v ;;
    n <- read planeNormal ;;
    ret (mkCircleRef true center h n)
  else ret circleResult.

Definition points_branch (c1 : ref) (r1 : num) (n_A n_B L_dir : ref) (d_A d_B L_dir_sq : num)
  : M num (list ref) :=
  if L_dir_sq >? neps then
    v <- new_Vector3 (nlit 0) (nlit 0) (nlit 0) ;;
    v <- o_crossVectors v n_B L_dir ;;
    tmp1 <- o_multiplyScalar v d_A ;;
    v <- new_Vector3 (nlit 0) (nlit 0) (nlit 0) ;;
    v <- o_crossVectors v L_dir n_A ;;
    tmp2 <- o_multiplyScalar v d_B ;;
    v <- new_Vector3 (nlit 0) (nlit 0) (nlit 0) ;;
    v <- o_addVectors v tmp1 tmp2 ;;
    L_p0 <- o_divideScalar v L_dir_sq ;;
    v <- new_Vector3 (nlit 0) (nlit 0) (nlit 0) ;;
    delta_p <- o_subVectors v L_p0 c1 ;;
    let A := L_dir_sq in
    dp <- o_dot delta_p L_dir ;;
    let B := nlit 2 * dp in
    lp <- o_lengthSq delta_p ;;
    let C := lp - r1 * r1 in
    let discriminant := B * B - nlit 4 * A * C in
    if discriminant >=? nlit 0 then
      let sqrt_disc := nsqrt discriminant in
      let t1 := (- B + sqrt_disc) / (nlit 2 * A) in
      let t2 := (- B - sqrt_disc) / (nlit 2 * A) in
      v <- new_Vector3 (nlit 0) (nlit 0) (nlit 0) ;;
      v <- o_copy v L_p0 ;;
      p1 <- o_addScaledVector v L_dir t1 ;;
      if discriminant >? neps then
        v <- new_Vector3 (nlit 0) (nlit 0) (nlit 0) ;;
        v <- o_copy v L_p0 ;;
        p2 <- o_addScaledVector v L_dir t2 ;;
        ret [p1; p2]
      else ret [p1]
    else ret []
  else ret [].

Definition Scene_callback (movablePointVec : ref) : M num GeometryRef :=
  rTop <- o_distanceTo Ref_TOP movablePointVec ;;
  rLeft <- o_distanceTo Ref_LEFT movablePointVec ;;
  rFront <- o_distanceTo Ref_FRONT movablePointVec ;;
  let c1 := Ref_TOP in
  let c2 := Ref_LEFT in
  let r1 := rTop in
  let r2 := rLeft in
  d_12 <- o_distanceTo c1 c2 ;;
  v <- new_Vector3 (nlit 0) (nlit 0) (nlit 0) ;;
  circleResult <- circle_branch c1 c2 r1 r2 d_12 (mkCircleRef false v (nlit 0) defaultNormal) ;;
  let c3 := Ref_FRONT in
  let r3 := rFront in
  v <- new_Vector3 (nlit 0) (nlit 0) (nlit 0) ;;
  n_A <- o_subVectors v c2 c1 ;;
  l1 <- o_lengthSq c1 ;;
  l2 <- o_lengthSq c2 ;;
  let d_A := (r1 * r1 - r2 * r2 - l1 + l2) / nlit 2 in
  v <- new_Vector3 (nlit 0) (nlit 0) (nlit 0) ;;
  n_B <- o_subVectors v c3 c1 ;;
  l1 <- o_lengthSq c1 ;;
  l3 <- o_lengthSq c3 ;;
  let d_B := (r1 * r1 - r3 * r3 - l1 + l3) / nlit 2 in
  v <- new_Vector3 (nlit 0) (nlit 0) (nlit 0) ;;
  L_dir <- o_crossVectors v n_A n_B ;;
  L_dir_sq <- o_lengthSq L_dir ;;
  pointsResult <- points_branch c1 r1 n_A n_B L_dir d_A d_B L_dir_sq ;;
  ret (mkGeometryRef rTop rLeft rFront circleResult pointsResult).

(** The vectors behind the references, as the renderer reads them afterwards. *)
Definition snapshot (g : GeometryRef) : M num (GeometryResult num) :=
  fun m =>
    let deref r := fst (read r m) in
    let c := ref_intersectionCircle g in
    (mkGeometryResult (ref_radiusTop g) (ref_radiusLeft g) (ref_radiusFront g)
       (mkCircle (ref_exists c) (deref (ref_center c)) (ref_radius c) (ref_normal c))
       (map deref (ref_intersectionPoints g)), m).

(** The module-level constants, as the module leaves them when it is loaded. *)
Definition anchors_loaded (v : Vector3 num) : Captured num :=
  mkCaptured TOP_POINT_POS LEFT_POINT_POS FRONT_POINT_POS v.

(** One invocation: [movablePointVec] is the vector of the current slider
    values, the anchors are whatever earlier invocations left behind. *)
Definition invoke (g : Captured num) (movablePoint : Point3D num)
  : GeometryResult num * Captured num :=
  let g0 := mkCaptured (cell_TOP g) (cell_LEFT g) (cell_FRONT g)
              (movablePointVec movablePoint) in
  let (res, m) := (r <- Scene_callback Ref_movable ;; snapshot r) (mkMem g0 []) in
  (res, captured m).

(** The store after a sequence of invocations, oldest first. *)
Fixpoint after_invocations (g : Captured num) (history : list (Point3D num))
  : Captured num :=
  match history with
  | [] => g
  | q :: rest => after_invocations (snd (invoke g q)) rest
  end.
End Objects.

(** ** The state of [App]

    [App] keeps the movable point in a state variable, initially the origin;
    each slider reports a change of one coordinate, which
    [handleSliderChange] applies as [setPoint(prev => ({ ...prev, [axis]: value }))]. *)

Unset Implicit Arguments.

(** [keyof Point3D] *)
Inductive Axis : Type := axis_x | axis_y | axis_z.

(** [point[axis]] *)
Definition coordinate {num : Type} (axis : Axis) (point : Point3D num) : num :=
  match axis with
  | axis_x => px point
  | axis_y => py point
  | axis_z => pz point
  end.

Definition handleSliderChange {num : Type} (axis : Axis) (value : num) (prev : Point3D num)
  : Point3D num :=
  match axis with
  | axis_x => mkPoint3D value (py prev) (pz prev)
  | axis_y => mkPoint3D (px prev) value (pz prev)
  | axis_z => mkPoint3D (px prev) (py prev) value
  end.

(** The point after a sequence of slider changes, oldest first. *)
Fixpoint after_changes {num : Type} (point : Point3D num) (changes : list (Axis * num))
  : Point3D num :=
  match changes with
  | [] => point
  | (axis, value) :: rest => after_changes (handleSliderChange axis value point) rest
  end.

Definition Axis_eqb (a b : Axis) : bool :=
  match a, b with
  | axis_x, axis_x | axis_y, axis_y | axis_z, axis_z => true
  | _, _ => false
  end.

(** The value of the last change made to [axis], if any. *)
Fixpoint last_change {num : Type} (axis : Axis) (changes : list (Axis * num)) : option num :=
  match changes with
  | [] => None
  | (a, v) :: rest =>
      match last_change axis rest with
      | Some w => Some w
      | None => if Axis_eqb a axis then Some v else None
      end
  end.

(** ** Quantities used in the statements

    For a movable point (x, y, z): [plane_offset] is -x + y + z - 8, zero on the
    plane through the three anchors; [line_dist_sq] is the squared distance to
    the line through the first two anchors; [mirror] is the reflection in the
    plane of the anchors. *)

Local Open Scope R_scope.

Definition plane_offset (p : Point3D R) : R := - px p + py p + pz p - 8.

Definition line_dist_sq (p : Point3D R) : R :=
  pz p * pz p + (px p - py p + 8) * (px p - py p + 8) / 2.

(** The distance between two points as the specification writes it. *)
Definition euclidean_distance (u v : Vector3 R) : R :=
  sqrt ((vx v - vx u) ^ 2 + (vy v - vy u) ^ 2 + (vz v - vz u) ^ 2).

(** The point of parameter [t] on the line [L_p0 + t * L_dir]. *)
Definition line_point {num : Type} `{Number num} (p : Point3D num) (t : num) : Vector3 num :=
  addScaledVector (copy (L_p0 p)) L_dir t.


Definition point_of {num : Type} (v : Vector3 num) : Point3D num :=
  mkPoint3D (vx v) (vy v) (vz v).

Definition mirror (p : Point3D R) : Vector3 R :=
  mkVector3 (px p + 2 * plane_offset p / 3)
            (py p - 2 * plane_offset p / 3)
            (pz p - 2 * plane_offset p / 3).

(** Movable points used as examples: the initial state of [App]; a point beyond
    the first anchor on the side away from the second; a point 2^-18 above the
    first anchor; the anchors themselves. *)
Definition originR : Point3D R := mkPoint3D 0 0 0.
Definition off_segment : Point3D R := mkPoint3D 1 9 5.
Definition near_plane : Point3D R := mkPoint3D 0 (8 + / 262144) 0.
Definition TOP_R : Point3D R := point_of TOP_POINT_POS.
Definition LEFT_R : Point3D R := point_of LEFT_POINT_POS.
Definition FRONT_R : Point3D R := point_of FRONT_POINT_POS.

(** The same in binary64, and the slider values x = -1.6, y = 6.4, z = 0 (the
    doubles nearest to them), a point of the segment between the first two
    anchors up to rounding. *)
Definition origin64 : Point3D float := mkPoint3D 0%float 0%float 0%float.
Definition TOP64 : Point3D float := mkPoint3D 0%float 8%float 0%float.
Definition LEFT64 : Point3D float := mkPoint3D (-8)%float 0%float 0%float.
Definition FRONT64 : Point3D float := mkPoint3D 0%float 0%float 8%float.
Definition near_plane64 : Point3D float :=
  mkPoint3D 0%float 0x1.000008p+3%float 0%float.

(** The point (1, 9, 0), on the line through the first two anchors beyond the
    first: its two spheres touch from inside.  The point (1, 9, 5) in binary64. *)
Definition tangent_R : Point3D R := mkPoint3D 1 9 0.
Definition tangent64 : Point3D float := mkPoint3D 1%float 9%float 0%float.
Definition off_segment64 : Point3D float := mkPoint3D 1%float 9%float 5%float.

(** The offset [(rA^2 - rB^2 + d^2) / (2 d)] along the line of the centres, and
    the midpoint of two points, as the statements write them. *)
Definition signed_offset (rA rB d : R) : R := (rA * rA - rB * rB + d * d) / (2 * d).
Definition midpoint (u v : Vector3 R) : Vector3 R := multiplyScalar (addVectors u v) (1 / 2).

(** Two vectors at distance at most 1e-6, in binary64. *)
Definition close64 (u v : Vector3 float) : bool :=
  PrimFloat.leb (distanceTo u v) 0x1.0c6f7a0b5ed8dp-20%float.

(** ** Tactics *)

(** Reduce the operations of the exact instance to those of [R]. *)
Ltac num_red :=
  cbn [nlit neps nadd nsub nmul ndiv nneg nsqrt nabs nmax nlt nle ntruthy ideal
       vx vy vz px py pz].

Ltac vec_unfold :=
  unfold normalize, divideScalar, multiplyScalar, addScaledVector, add, copy,
    crossVectors, addVectors, subVectors, dot, distanceTo, distanceToSquared,
    length, lengthSq, newVector3 in *.

Ltac anchors_unfold :=
  unfold c1, c2, c3, TOP_POINT_POS, LEFT_POINT_POS, FRONT_POINT_POS, movablePointVec in *.

(** Symbolic execution of the callback over the store.  [norm_in] unfolds the
    store and the scene's names and keeps vector operations and arithmetic
    folded; [exec_step] runs the first pending method call, whose store is
    known; [exec_branch] splits on the test of a conditional. *)
Ltac norm_in t :=
  eval cbv beta iota zeta delta
    [bind ret read write new_Vector3 snapshot
     o_distanceTo o_lengthSq o_dot o_subVectors o_addVectors o_crossVectors o_copy o_add
     o_multiplyScalar o_divideScalar o_normalize o_addScaledVector
     fst snd nth list_set app List.length map
     captured frame cell_TOP cell_LEFT cell_FRONT cell_movable
     ref_exists ref_center ref_radius ref_normal
     ref_radiusTop ref_radiusLeft ref_radiusFront ref_intersectionCircle ref_intersectionPoints
     anchors_loaded newVector3 normalize divideScalar
     computeGeometry circleResult pointsResult center_ planeNormal direction h a
     p1 p2 t1 t2 sqrt_disc discriminant C B A delta_p L_p0 tmp1 tmp2 L_dir_sq L_dir
     d_A d_B n_A n_B d_12 r1 r2 r3 c1 c2 c3 rTop rLeft rFront] in t.

Ltac run_call c :=
  let v := norm_in c in
  change c with v; cbv beta iota zeta.

Ltac exec_step :=
  match goal with
  | |- context [o_distanceTo ?x ?y ?m] => run_call (o_distanceTo x y m)
  | |- context [o_lengthSq ?x ?m] => run_call (o_lengthSq x m)
  | |- context [o_dot ?x ?y ?m] => run_call (o_dot x y m)
  | |- context [o_subVectors ?x ?y ?z ?m] => run_call (o_subVectors x y z m)
  | |- context [o_addVectors ?x ?y ?z ?m] => run_call (o_addVectors x y z m)
  | |- context [o_crossVectors ?x ?y ?z ?m] => run_call (o_crossVectors x y z m)
  | |- context [o_copy ?x ?y ?m] => run_call (o_copy x y m)
  | |- context [o_add ?x ?y ?m] => run_call (o_add x y m)
  | |- context [o_multiplyScalar ?x ?s ?m] => run_call (o_multiplyScalar x s m)
  | |- context [o_divideScalar ?x ?s ?m] => run_call (o_divideScalar x s m)
  | |- context [o_normalize ?x ?m] => run_call (o_normalize x m)
  | |- context [o_addScaledVector ?x ?y ?s ?m] => run_call (o_addScaledVector x y s m)
  | |- context [new_Vector3 ?x ?y ?z ?m] => run_call (new_Vector3 x y z m)
  | |- context [read ?x ?m] => run_call (read x m)
  | |- context [@ret ?n ?T ?x ?m] => run_call (@ret n T x m)
  | |- context [snapshot ?x ?m] => run_call (snapshot x m)
  end.

Ltac exec_branch :=
  match goal with
  | |- context [(if ?c then _ else _) ?m] => destruct c; cbv beta iota zeta
  end.

Ltac exec_all :=
  repeat first
    [ exec_step
    | progress cbv beta iota zeta delta [circle_branch points_branch bind]
    | exec_branch ].

(** ** Exact arithmetic: the values computed by the scene *)

Lemma sumsq_nonneg (u v w : R) : 0 <= u * u + v * v + w * w.
Proof. nra. Qed.

Lemma sqrt_sumsq (u v w : R) :
  sqrt (u * u + v * v + w * w) * sqrt (u * u + v * v + w * w) = u * u + v * v + w * w.
Proof. apply sqrt_sqrt, sumsq_nonneg. Qed.

Lemma Vector3_eq (u v : Vector3 R) :
  vx u = vx v -> vy u = vy v -> vz u = vz v -> u = v.
Proof. destruct u, v; simpl; intros; subst; reflexivity. Qed.

Lemma distanceTo_sq (u v : Vector3 R) :
  distanceTo u v * distanceTo u v = distanceToSquared u v.
Proof. unfold distanceTo, distanceToSquared. num_red. apply sqrt_sumsq. Qed.

Lemma distanceTo_nonneg (u v : Vector3 R) : 0 <= distanceTo u v.
Proof. unfold distanceTo. num_red. apply sqrt_pos. Qed.

Lemma rTop_sq (p : Point3D R) :
  rTop p * rTop p = px p * px p + (py p - 8) * (py p - 8) + pz p * pz p.
Proof. unfold rTop. rewrite distanceTo_sq. anchors_unfold. vec_unfold. num_red. ring. Qed.

Lemma rLeft_sq (p : Point3D R) :
  rLeft p * rLeft p = (px p + 8) * (px p + 8) + py p * py p + pz p * pz p.
Proof. unfold rLeft. rewrite distanceTo_sq. anchors_unfold. vec_unfold. num_red. ring. Qed.

Lemma rFront_sq (p : Point3D R) :
  rFront p * rFront p = px p * px p + py p * py p + (pz p - 8) * (pz p - 8).
Proof. unfold rFront. rewrite distanceTo_sq. anchors_unfold. vec_unfold. num_red. ring. Qed.

Lemma n_A_val : n_A = mkVector3 (-8) (-8) 0.
Proof. unfold n_A. anchors_unfold. vec_unfold. num_red. f_equal; ring. Qed.

Lemma n_B_val : n_B = mkVector3 0 (-8) 8.
Proof. unfold n_B. anchors_unfold. vec_unfold. num_red. f_equal; ring. Qed.

Lemma L_dir_val : L_dir = mkVector3 (-64) 64 64.
Proof. unfold L_dir. rewrite n_A_val, n_B_val. vec_unfold. num_red. f_equal; ring. Qed.

Lemma L_dir_sq_val : L_dir_sq = 12288.
Proof. unfold L_dir_sq. rewrite L_dir_val. vec_unfold. num_red. ring. Qed.

Lemma d_12_val : d_12 = sqrt 128.
Proof. unfold d_12. anchors_unfold. vec_unfold. num_red. f_equal. ring. Qed.

Lemma d_A_val (p : Point3D R) : d_A p = -8 * (px p + py p).
Proof.
  unfold d_A, r1, r2. anchors_unfold. unfold lengthSq. num_red.
  rewrite rTop_sq, rLeft_sq. field.
Qed.

Lemma d_B_val (p : Point3D R) : d_B p = 8 * (pz p - py p).
Proof.
  unfold d_B, r1, r3. anchors_unfold. unfold lengthSq. num_red.
  rewrite rTop_sq, rFront_sq. field.
Qed.

Lemma L_p0_val (p : Point3D R) :
  L_p0 p = mkVector3 (px p + (plane_offset p + 8) / 3)
                     (py p - (plane_offset p + 8) / 3)
                     (pz p - (plane_offset p + 8) / 3).
Proof.
  unfold L_p0, tmp1, tmp2. rewrite L_dir_sq_val, L_dir_val, n_A_val, n_B_val, d_A_val, d_B_val.
  unfold plane_offset. vec_unfold. num_red. f_equal; field.
Qed.

Lemma B_val (p : Point3D R) : B p = -1024.
Proof.
  unfold B, delta_p. rewrite L_p0_val, L_dir_val. anchors_unfold. vec_unfold. num_red.
  unfold plane_offset. field.
Qed.

Lemma A_val : A = 12288.
Proof. unfold A. apply L_dir_sq_val. Qed.

Lemma discriminant_val (p : Point3D R) :
  discriminant p = 16384 * (plane_offset p * plane_offset p).
Proof.
  unfold discriminant. rewrite B_val, A_val. unfold C, delta_p, r1. rewrite L_p0_val.
  anchors_unfold. unfold lengthSq, subVectors. num_red. rewrite rTop_sq.
  unfold plane_offset. field.
Qed.

Lemma discriminant_nonneg (p : Point3D R) : 0 <= discriminant p.
Proof. rewrite discriminant_val. nra. Qed.

Lemma sqrt_disc_val (p : Point3D R) : sqrt_disc p = 128 * Rabs (plane_offset p).
Proof.
  unfold sqrt_disc. rewrite discriminant_val. num_red.
  replace (16384 * (plane_offset p * plane_offset p))
    with (Rsqr (128 * plane_offset p)) by (unfold Rsqr; ring).
  rewrite sqrt_Rsqr_abs, Rabs_mult, (Rabs_pos_eq 128) by lra. reflexivity.
Qed.

Lemma t1_val (p : Point3D R) : t1 p = (8 + Rabs (plane_offset p)) / 192.
Proof. unfold t1. rewrite B_val, A_val, sqrt_disc_val. num_red. field. Qed.

Lemma t2_val (p : Point3D R) : t2 p = (8 - Rabs (plane_offset p)) / 192.
Proof. unfold t2. rewrite B_val, A_val, sqrt_disc_val. num_red. field. Qed.

Lemma p1_val (p : Point3D R) :
  p1 p = mkVector3 (px p - (Rabs (plane_offset p) - plane_offset p) / 3)
                   (py p + (Rabs (plane_offset p) - plane_offset p) / 3)
                   (pz p + (Rabs (plane_offset p) - plane_offset p) / 3).
Proof.
  unfold p1. rewrite L_p0_val, L_dir_val, t1_val. vec_unfold. num_red. f_equal; field.
Qed.

Lemma p2_val (p : Point3D R) :
  p2 p = mkVector3 (px p + (Rabs (plane_offset p) + plane_offset p) / 3)
                   (py p - (Rabs (plane_offset p) + plane_offset p) / 3)
                   (pz p - (Rabs (plane_offset p) + plane_offset p) / 3).
Proof.
  unfold p2. rewrite L_p0_val, L_dir_val, t2_val. vec_unfold. num_red. f_equal; field.
Qed.

Lemma Rltb_true (x y : R) : Rltb x y = true <-> x < y.
Proof. unfold Rltb. destruct (Rlt_dec x y); split; intros; try discriminate; tauto. Qed.

Lemma Rltb_false (x y : R) : Rltb x y = false <-> y <= x.
Proof.
  unfold Rltb. destruct (Rlt_dec x y); split; intros; try discriminate; try lra; auto.
Qed.

Lemma Rleb_true (x y : R) : Rleb x y = true <-> x <= y.
Proof. unfold Rleb. destruct (Rle_dec x y); split; intros; try discriminate; tauto. Qed.

Lemma Rleb_false (x y : R) : Rleb x y = false <-> y < x.
Proof.
  unfold Rleb. destruct (Rle_dec x y); split; intros; try discriminate; try lra; auto.
Qed.

Lemma pointsResult_val (p : Point3D R) :
  pointsResult p = p1 p :: (if Rltb (1 / 1000000) (discriminant p) then [p2 p] else []).
Proof.
  unfold pointsResult. num_red. rewrite L_dir_sq_val.
  replace (Rltb (1 / 1000000) 12288) with true
    by (symmetry; apply Rltb_true; lra).
  replace (Rleb 0 (discriminant p)) with true
    by (symmetry; apply Rleb_true, discriminant_nonneg).
  reflexivity.
Qed.

Lemma sqrt128_sq : sqrt 128 * sqrt 128 = 128.
Proof. apply sqrt_sqrt. lra. Qed.

Lemma sqrt128_pos : 0 < sqrt 128.
Proof. apply sqrt_lt_R0. lra. Qed.

Lemma d_12_sq : d_12 * d_12 = 128.
Proof. rewrite d_12_val. apply sqrt128_sq. Qed.

Lemma d_12_pos : 0 < d_12.
Proof. rewrite d_12_val. apply sqrt128_pos. Qed.

Lemma r1_sq (p : Point3D R) :
  r1 p * r1 p = px p * px p + (py p - 8) * (py p - 8) + pz p * pz p.
Proof. apply rTop_sq. Qed.

Lemma r2_sq (p : Point3D R) :
  r2 p * r2 p = (px p + 8) * (px p + 8) + py p * py p + pz p * pz p.
Proof. apply rLeft_sq. Qed.

Lemma r1_nonneg (p : Point3D R) : 0 <= r1 p.
Proof. apply distanceTo_nonneg. Qed.

Lemma r2_nonneg (p : Point3D R) : 0 <= r2 p.
Proof. apply distanceTo_nonneg. Qed.

Lemma a_val (p : Point3D R) : a p = (64 - 8 * (px p + py p)) / d_12.
Proof.
  unfold a. num_red. rewrite r1_sq, r2_sq, d_12_sq.
  pose proof d_12_pos. field. lra.
Qed.

Lemma a_times_d_12 (p : Point3D R) : a p * d_12 = 64 - 8 * (px p + py p).
Proof. rewrite a_val. pose proof d_12_pos. field. lra. Qed.

Lemma a_sq (p : Point3D R) :
  a p * a p = (px p + py p - 8) * (px p + py p - 8) / 2.
Proof.
  pose proof (a_times_d_12 p) as Ha. pose proof d_12_sq as Hd.
  assert (128 * (a p * a p) = (64 - 8 * (px p + py p)) * (64 - 8 * (px p + py p))).
  { rewrite <- Ha, <- Hd. ring. }
  lra.
Qed.

Lemma r1_sq_minus_a_sq (p : Point3D R) : r1 p * r1 p - a p * a p = line_dist_sq p.
Proof. rewrite r1_sq, a_sq. unfold line_dist_sq. field. Qed.

Lemma line_dist_sq_nonneg (p : Point3D R) : 0 <= line_dist_sq p.
Proof.
  unfold line_dist_sq.
  pose proof (Rle_0_sqr (pz p)) as H1. pose proof (Rle_0_sqr (px p - py p + 8)) as H2.
  unfold Rsqr in *. lra.
Qed.

Lemma h_val (p : Point3D R) : h p = sqrt (line_dist_sq p).
Proof.
  unfold h. num_red. rewrite r1_sq_minus_a_sq.
  rewrite Rmax_right by apply line_dist_sq_nonneg. reflexivity.
Qed.

Lemma triangle_strict_iff (u v d : R) :
  0 <= u -> 0 <= v -> 0 < d ->
  (d < u + v /\ Rabs (u - v) < d) <->
  (u * u + v * v - d * d) * (u * u + v * v - d * d) < 4 * (u * u) * (v * v).
Proof.
  intros Hu Hv Hd. split.
  - intros [H1 H2]. apply Rabs_def2 in H2. destruct H2 as [H2 H3].
    assert (0 < (u + v - d) * (u + v + d)) by (apply Rmult_lt_0_compat; lra).
    assert (0 < (d - (u - v)) * (d + (u - v))) by (apply Rmult_lt_0_compat; lra).
    assert (0 < ((u + v - d) * (u + v + d)) * ((d - (u - v)) * (d + (u - v))))
      by (apply Rmult_lt_0_compat; assumption).
    replace (((u + v - d) * (u + v + d)) * ((d - (u - v)) * (d + (u - v))))
      with (4 * (u * u) * (v * v)
            - (u * u + v * v - d * d) * (u * u + v * v - d * d)) in * by ring.
    lra.
  - intros Hlt. split.
    + destruct (Rlt_dec d (u + v)) as [|Hn]; [assumption|exfalso].
      assert (u + v <= d) by lra.
      assert (0 <= u * v) by (apply Rmult_le_pos; assumption).
      assert (2 * (u * v) <= d * d - u * u - v * v) by nra.
      nra.
    + apply Rabs_def1.
      * destruct (Rlt_dec (u - v) d) as [|Hn]; [assumption|exfalso].
        assert (d <= u - v) by lra.
        assert (0 <= u * v) by (apply Rmult_le_pos; assumption).
        assert (2 * (u * v) <= u * u + v * v - d * d) by nra.
        nra.
      * destruct (Rlt_dec (- d) (u - v)) as [|Hn]; [assumption|exfalso].
        assert (d <= v - u) by lra.
        assert (0 <= u * v) by (apply Rmult_le_pos; assumption).
        assert (2 * (u * v) <= u * u + v * v - d * d) by nra.
        nra.
Qed.

Lemma circle_test_val (p : Point3D R) :
  ((d_12 <? r1 p + r2 p) && (d_12 >? nabs (r1 p - r2 p)))%num = true <->
  0 < line_dist_sq p.
Proof.
  num_red. rewrite andb_true_iff, !Rltb_true.
  rewrite (triangle_strict_iff _ _ _ (r1_nonneg p) (r2_nonneg p) d_12_pos).
  rewrite r1_sq, r2_sq, d_12_sq. unfold line_dist_sq. split; intros; nra.
Qed.

Lemma distanceTo_of_sq (c q : Vector3 R) (r : R) :
  0 <= r -> distanceToSquared c q = r * r -> distanceTo c q = r.
Proof.
  intros Hr Hsq. unfold distanceTo. num_red. rewrite Hsq. apply sqrt_square, Hr.
Qed.

Lemma rTop_nonneg (p : Point3D R) : 0 <= rTop p.
Proof. apply distanceTo_nonneg. Qed.
Lemma rLeft_nonneg (p : Point3D R) : 0 <= rLeft p.
Proof. apply distanceTo_nonneg. Qed.
Lemma rFront_nonneg (p : Point3D R) : 0 <= rFront p.
Proof. apply distanceTo_nonneg. Qed.

Lemma shifted_point_on_spheres (p : Point3D R) (s : R) :
  s * (3 * s + 2 * plane_offset p) = 0 ->
  let q := mkVector3 (px p - s) (py p + s) (pz p + s) in
  distanceTo TOP_POINT_POS q = rTop p /\
  distanceTo LEFT_POINT_POS q = rLeft p /\
  distanceTo FRONT_POINT_POS q = rFront p.
Proof.
  intros Hs q. unfold plane_offset in Hs.
  split; [|split].
  - apply distanceTo_of_sq; [apply rTop_nonneg|]. rewrite rTop_sq.
    subst q; anchors_unfold; vec_unfold; num_red.
    apply Rminus_diag_uniq; (etransitivity; [|exact Hs]); ring.
  - apply distanceTo_of_sq; [apply rLeft_nonneg|]. rewrite rLeft_sq.
    subst q; anchors_unfold; vec_unfold; num_red.
    apply Rminus_diag_uniq; (etransitivity; [|exact Hs]); ring.
  - apply distanceTo_of_sq; [apply rFront_nonneg|]. rewrite rFront_sq.
    subst q; anchors_unfold; vec_unfold; num_red.
    apply Rminus_diag_uniq; (etransitivity; [|exact Hs]); ring.
Qed.

(** Claim C1.  In exact arithmetic every point returned by the three-sphere
    computation is on all three spheres: its distance to each anchor is the
    radius computed for that anchor.  (By [pointsResult_val] the returned list is
    never empty in exact arithmetic.) *)
Theorem trilateration_points_on_all_spheres (p : Point3D R) :
  Forall (fun q =>
            distanceTo TOP_POINT_POS q = radiusTop (computeGeometry p) /\
            distanceTo LEFT_POINT_POS q = radiusLeft (computeGeometry p) /\
            distanceTo FRONT_POINT_POS q = radiusFront (computeGeometry p))
         (intersectionPoints (computeGeometry p)).
Proof.
  unfold computeGeometry. cbn [intersectionPoints radiusTop radiusLeft radiusFront].
  rewrite pointsResult_val.
  assert (H1 : distanceTo TOP_POINT_POS (p1 p) = rTop p /\
               distanceTo LEFT_POINT_POS (p1 p) = rLeft p /\
               distanceTo FRONT_POINT_POS (p1 p) = rFront p).
  { rewrite p1_val.
    apply (shifted_point_on_spheres p ((Rabs (plane_offset p) - plane_offset p) / 3)).
    unfold Rabs. destruct (Rcase_abs (plane_offset p)); field. }
  assert (H2 : distanceTo TOP_POINT_POS (p2 p) = rTop p /\
               distanceTo LEFT_POINT_POS (p2 p) = rLeft p /\
               distanceTo FRONT_POINT_POS (p2 p) = rFront p).
  { rewrite p2_val.
    replace (px p + (Rabs (plane_offset p) + plane_offset p) / 3)
      with (px p - (- (Rabs (plane_offset p) + plane_offset p) / 3)) by field.
    replace (py p - (Rabs (plane_offset p) + plane_offset p) / 3)
      with (py p + (- (Rabs (plane_offset p) + plane_offset p) / 3)) by field.
    replace (pz p - (Rabs (plane_offset p) + plane_offset p) / 3)
      with (pz p + (- (Rabs (plane_offset p) + plane_offset p) / 3)) by field.
    apply (shifted_point_on_spheres p (- (Rabs (plane_offset p) + plane_offset p) / 3)).
    unfold Rabs. destruct (Rcase_abs (plane_offset p)); field. }
  destruct (Rltb (1 / 1000000) (discriminant p)).
  - apply Forall_cons; [exact H1|]. apply Forall_cons; [exact H2|]. apply Forall_nil.
  - apply Forall_cons; [exact H1|]. apply Forall_nil.
Qed.

Lemma circle_exists_test {num : Type} `{Number num} (p : Point3D num) :
  circle_exists (intersectionCircle (computeGeometry p)) =
  ((d_12 <? r1 p + r2 p) && (d_12 >? nabs (r1 p - r2 p)))%num.
Proof.
  unfold computeGeometry, circleResult. cbn [intersectionCircle].
  destruct ((d_12 <? r1 p + r2 p) && (d_12 >? nabs (r1 p - r2 p)))%num; reflexivity.
Qed.

Lemma anchors_distance : euclidean_distance (TOP_POINT_POS : Vector3 R) LEFT_POINT_POS = sqrt 128.
Proof.
  unfold euclidean_distance, TOP_POINT_POS, LEFT_POINT_POS. num_red. f_equal. ring.
Qed.

Lemma d_12_euclidean : d_12 = euclidean_distance (TOP_POINT_POS : Vector3 R) LEFT_POINT_POS.
Proof. rewrite anchors_distance. apply d_12_val. Qed.

(** Claim C2, as amended.  In any arithmetic the circle is reported to exist
    exactly when the program's test [d < r1 + r2 && d > |r1 - r2|] passes on the
    computed radii, [d] being the distance between the first two anchors,
    [sqrt 128].  In exact arithmetic this is [|r1 - r2| < d < r1 + r2] with
    strict inequalities, and equality on either side (tangent spheres) gives
    false.  (In binary64 the rounded radii can hide a tangency, see
    [tangent_circle_reported_binary64].) *)
Theorem circle_exists_iff_strict :
  (forall (num : Type) (N : Number num) (p : Point3D num),
      circle_exists (intersectionCircle (computeGeometry p)) =
      ((distanceTo TOP_POINT_POS LEFT_POINT_POS
          <? radiusTop (computeGeometry p) + radiusLeft (computeGeometry p)) &&
       (distanceTo TOP_POINT_POS LEFT_POINT_POS
          >? nabs (radiusTop (computeGeometry p) - radiusLeft (computeGeometry p))))%num) /\
  (forall p : Point3D R,
      (circle_exists (intersectionCircle (computeGeometry p)) = true <->
       Rabs (radiusTop (computeGeometry p) - radiusLeft (computeGeometry p))
         < euclidean_distance TOP_POINT_POS LEFT_POINT_POS
         < radiusTop (computeGeometry p) + radiusLeft (computeGeometry p)) /\
      (euclidean_distance TOP_POINT_POS LEFT_POINT_POS
         = radiusTop (computeGeometry p) + radiusLeft (computeGeometry p) \/
       euclidean_distance TOP_POINT_POS LEFT_POINT_POS
         = Rabs (radiusTop (computeGeometry p) - radiusLeft (computeGeometry p)) ->
       circle_exists (intersectionCircle (computeGeometry p)) = false)) /\
  euclidean_distance (TOP_POINT_POS : Vector3 R) LEFT_POINT_POS = sqrt 128.
Proof.
  split; [|split].
  - intros num N p. apply circle_exists_test.
  - intros p. rewrite circle_exists_test, <- d_12_euclidean.
    unfold computeGeometry. cbn [radiusTop radiusLeft].
    change (rTop p) with (r1 p). change (rLeft p) with (r2 p). num_red. split.
    + rewrite andb_true_iff, !Rltb_true. tauto.
    + intros [Ht | Ht].
      * apply andb_false_iff. left. apply Rltb_false. lra.
      * apply andb_false_iff. right. apply Rltb_false. lra.
  - apply anchors_distance.
Qed.

(** Claim C2 as stated fails in the arithmetic the program runs: for the movable
    point (1, 9, 0) the first sphere touches the second from inside,
    [d = |r1 - r2|], and the program reports the circle, because the rounded
    radii differ by slightly less than the rounded [d]. *)
Lemma tangent_circle_reported_binary64 :
  euclidean_distance TOP_POINT_POS LEFT_POINT_POS =
    Rabs (radiusTop (computeGeometry tangent_R) - radiusLeft (computeGeometry tangent_R)) /\
  circle_exists (intersectionCircle (computeGeometry tangent64)) = true.
Proof.
  split; [|vm_compute; reflexivity].
  rewrite <- d_12_euclidean. unfold computeGeometry. cbn [radiusTop radiusLeft].
  pose proof (rTop_sq tangent_R) as H1. pose proof (rLeft_sq tangent_R) as H2.
  pose proof (rTop_nonneg tangent_R) as P1. pose proof (rLeft_nonneg tangent_R) as P2.
  pose proof d_12_sq as Hd. pose proof d_12_pos as Pd.
  unfold tangent_R in H1 at 3 4 5 6 7 8. unfold tangent_R in H2 at 3 4 5 6 7 8.
  cbn [px py pz] in H1, H2.
  set (u := rTop tangent_R) in *. set (v := rLeft tangent_R) in *. set (d := d_12) in *.
  assert (Huv : u * v = 18).
  { assert (Hsq : (u * v) * (u * v) = 18 * 18) by nra.
    assert (0 <= u * v) by (apply Rmult_le_pos; assumption).
    nra. }
  assert (Hvu : v = u + d).
  { assert ((v - u) * (v - u) = d * d) by nra.
    assert (u < v) by nra. nra. }
  rewrite Rabs_left1 by lra. lra.
Qed.

Lemma distanceTo_euclidean (u v : Vector3 R) : distanceTo u v = euclidean_distance u v.
Proof.
  unfold distanceTo, distanceToSquared, euclidean_distance. num_red. f_equal. ring.
Qed.

(** Claim C3.  Each of the three radii is nonnegative and is the Euclidean
    distance from its anchor to the movable point. *)
Theorem radii_are_distances (p : Point3D R) :
  (0 <= radiusTop (computeGeometry p) /\
   radiusTop (computeGeometry p) = euclidean_distance TOP_POINT_POS (movablePointVec p)) /\
  (0 <= radiusLeft (computeGeometry p) /\
   radiusLeft (computeGeometry p) = euclidean_distance LEFT_POINT_POS (movablePointVec p)) /\
  (0 <= radiusFront (computeGeometry p) /\
   radiusFront (computeGeometry p) = euclidean_distance FRONT_POINT_POS (movablePointVec p)).
Proof.
  unfold computeGeometry. cbn [radiusTop radiusLeft radiusFront].
  unfold rTop, rLeft, rFront.
  repeat split; try apply distanceTo_nonneg; apply distanceTo_euclidean.
Qed.

Lemma Rtruthy_pos (x : R) : 0 < x -> Rtruthy x = true.
Proof. intros Hx. unfold Rtruthy. destruct (Req_dec_T x 0); [lra | reflexivity]. Qed.

Lemma direction_val : direction = mkVector3 (-8 * (1 / d_12)) (-8 * (1 / d_12)) (0 * (1 / d_12)).
Proof.
  unfold direction, normalize.
  replace (length (subVectors c2 c1)) with (d_12 (num:=R)).
  - num_red. rewrite (Rtruthy_pos _ d_12_pos).
    anchors_unfold. vec_unfold. num_red. f_equal; ring.
  - unfold d_12. anchors_unfold. vec_unfold. num_red. f_equal. ring.
Qed.

Lemma planeNormal_val : (planeNormal : Vector3 R) = direction.
Proof. reflexivity. Qed.

Lemma a_def (p : Point3D R) :
  a p = (r1 p * r1 p - r2 p * r2 p + d_12 * d_12) / (2 * d_12).
Proof. reflexivity. Qed.


Lemma circle_exists_val (p : Point3D R) :
  circle_exists (intersectionCircle (computeGeometry p)) = true <-> 0 < line_dist_sq p.
Proof. rewrite circle_exists_test. apply circle_test_val. Qed.

Lemma circle_fields_when_exists (p : Point3D R) :
  circle_exists (intersectionCircle (computeGeometry p)) = true ->
  intersectionCircle (computeGeometry p) = mkCircle true (center_ p) (h p) planeNormal.
Proof.
  rewrite circle_exists_test. unfold computeGeometry, circleResult.
  cbn [intersectionCircle]. intros ->. reflexivity.
Qed.




Lemma Rabs_le_between (x b : R) : Rabs x <= b <-> - b <= x <= b.
Proof. unfold Rabs. destruct (Rcase_abs x); lra. Qed.

Lemma a_signed_offset (p : Point3D R) :
  a p = signed_offset (radiusTop (computeGeometry p)) (radiusLeft (computeGeometry p))
          (euclidean_distance TOP_POINT_POS LEFT_POINT_POS).
Proof. rewrite <- d_12_euclidean. reflexivity. Qed.

(** Claim C5, as amended.  In exact arithmetic, whenever the circle exists its
    centre is [c1 + a * normalize (c2 - c1)], with
    [a = (r1^2 - r2^2 + d^2) / (2 d)] and [d] the distance between the first two
    anchors: a point of the line through the two centres, which need not be
    between them.  It is between them, [0 <= a <= d], exactly when
    [|r1^2 - r2^2| <= d^2], that is when [-8 <= x + y <= 8] for the movable
    point (x, y, z). *)
Theorem circle_center_on_center_line (p : Point3D R) :
  circle_exists (intersectionCircle (computeGeometry p)) = true ->
  center (intersectionCircle (computeGeometry p)) =
    addScaledVector TOP_POINT_POS (normalize (subVectors LEFT_POINT_POS TOP_POINT_POS))
      (signed_offset (radiusTop (computeGeometry p)) (radiusLeft (computeGeometry p))
         (euclidean_distance TOP_POINT_POS LEFT_POINT_POS)) /\
  (0 <= signed_offset (radiusTop (computeGeometry p)) (radiusLeft (computeGeometry p))
          (euclidean_distance TOP_POINT_POS LEFT_POINT_POS)
     <= euclidean_distance TOP_POINT_POS LEFT_POINT_POS <->
   Rabs (radiusTop (computeGeometry p) * radiusTop (computeGeometry p)
         - radiusLeft (computeGeometry p) * radiusLeft (computeGeometry p))
     <= euclidean_distance TOP_POINT_POS LEFT_POINT_POS
        * euclidean_distance TOP_POINT_POS LEFT_POINT_POS) /\
  (0 <= signed_offset (radiusTop (computeGeometry p)) (radiusLeft (computeGeometry p))
          (euclidean_distance TOP_POINT_POS LEFT_POINT_POS)
     <= euclidean_distance TOP_POINT_POS LEFT_POINT_POS <->
   -8 <= px p + py p <= 8).
Proof.
  intros Hex. rewrite <- a_signed_offset, <- d_12_euclidean.
  rewrite (circle_fields_when_exists p Hex). cbn [center].
  unfold computeGeometry. cbn [radiusTop radiusLeft].
  change (rTop p) with (r1 p). change (rLeft p) with (r2 p).
  pose proof d_12_pos as Hd. pose proof d_12_sq as Hdd.
  pose proof (a_times_d_12 p) as Ha.
  split; [reflexivity|]. split.
  - rewrite r1_sq, r2_sq, Hdd. split.
    + intros [H0 H1]. apply Rabs_le_between. nra.
    + intros Habs. apply Rabs_le_between in Habs. split; nra.
  - split.
    + intros [H0 H1]. split; nra.
    + intros [H0 H1]. split; nra.
Qed.

Lemma circle_center_on_center_line_witness :
  0 <= signed_offset (radiusTop (computeGeometry originR)) (radiusLeft (computeGeometry originR))
          (euclidean_distance TOP_POINT_POS LEFT_POINT_POS)
     <= euclidean_distance TOP_POINT_POS LEFT_POINT_POS <->
  -8 <= px originR + py originR <= 8.
Proof.
  apply (circle_center_on_center_line originR).
  apply circle_exists_val. unfold line_dist_sq, originR. cbn [px py pz]. lra.
Defined.

(** Claim C5 as stated fails: for the movable point (1, 9, 5) the circle exists
    and its centre is beyond [c1], at a negative offset, in exact arithmetic and
    in binary64. *)
Lemma circle_center_outside_segment :
  (circle_exists (intersectionCircle (computeGeometry off_segment)) = true /\
   ~ (0 <= a off_segment <= d_12)) /\
  (circle_exists (intersectionCircle (computeGeometry off_segment64)) = true /\
   PrimFloat.ltb (a off_segment64) 0 = true).
Proof.
  split; [|vm_compute; split; reflexivity].
  split.
  - apply circle_exists_val. unfold line_dist_sq, off_segment. cbn [px py pz]. lra.
  - intros [H0 _]. pose proof (a_times_d_12 off_segment) as Ha.
    unfold off_segment in Ha at 2 3. cbn [px py] in Ha.
    pose proof d_12_pos. nra.
Qed.

(** Claim C6, as amended.  When the two radical planes are not parallel, the
    points follow the discriminant as the code tests it: no point when
    [discriminant >= 0] fails; exactly one point, at
    [t = (-B + sqrt discriminant) / (2 A)], when [0 <= discriminant <= 1e-6];
    exactly two points, at [t = (-B + sqrt discriminant) / (2 A)] and
    [t = (-B - sqrt discriminant) / (2 A)] in this order, when
    [discriminant > 1e-6].  It holds in any arithmetic, exact or binary64. *)
Theorem points_follow_discriminant {num : Type} `{Number num} (p : Point3D num) :
  (L_dir_sq >? neps)%num = true ->
  ((discriminant p >=? nlit 0)%num = false -> pointsResult p = []) /\
  ((discriminant p >=? nlit 0)%num = true -> (discriminant p >? neps)%num = false ->
   pointsResult p =
     [line_point p ((- B p + nsqrt (discriminant p)) / (nlit 2 * A))%num]) /\
  ((discriminant p >=? nlit 0)%num = true -> (discriminant p >? neps)%num = true ->
   pointsResult p =
     [line_point p ((- B p + nsqrt (discriminant p)) / (nlit 2 * A))%num;
      line_point p ((- B p - nsqrt (discriminant p)) / (nlit 2 * A))%num]).
Proof.
  intros Hdir. unfold pointsResult. rewrite Hdir.
  split; [|split].
  - intros ->. reflexivity.
  - intros -> ->. reflexivity.
  - intros -> ->. reflexivity.
Qed.

Lemma planes_not_parallel64 : ((L_dir_sq : float) >? neps)%num = true.
Proof. vm_compute. reflexivity. Qed.

Lemma points_follow_discriminant_witness :
  pointsResult LEFT64 = [] /\
  List.length (pointsResult TOP64) = 1%nat /\
  List.length (pointsResult origin64) = 2%nat.
Proof.
  split; [|split].
  - apply (points_follow_discriminant LEFT64); vm_compute; reflexivity.
  - rewrite (proj1 (proj2 (points_follow_discriminant TOP64 planes_not_parallel64)));
      vm_compute; reflexivity.
  - rewrite (proj2 (proj2 (points_follow_discriminant origin64 planes_not_parallel64)));
      vm_compute; reflexivity.
Defined.

Lemma plane_offset_near_plane : plane_offset near_plane = / 262144.
Proof. unfold plane_offset, near_plane. cbn [px py pz]. field. Qed.

(** Claim C6 as stated fails: for the movable point (0, 8 + 2^-18, 0) the
    discriminant is positive and within 1e-6; one point is returned, not two,
    and it is not the point at [t = -B / (2 A)]. *)
Lemma tangent_point_not_at_vertex :
  0 < discriminant near_plane <= neps /\
  pointsResult near_plane = [p1 near_plane] /\
  p1 near_plane <> line_point near_plane (- B near_plane / (2 * A)).
Proof.
  assert (Hd : discriminant near_plane = / 4194304).
  { rewrite discriminant_val, plane_offset_near_plane. field. }
  split; [|split].
  - rewrite Hd. cbn [neps ideal]. lra.
  - rewrite pointsResult_val, Hd.
    replace (Rltb (1 / 1000000) (/ 4194304)) with false; [reflexivity|].
    symmetry. apply Rltb_false. lra.
  - rewrite p1_val. unfold line_point. rewrite L_p0_val, L_dir_val, B_val, A_val.
    rewrite plane_offset_near_plane.
    rewrite (Rabs_pos_eq (/ 262144)) by lra.
    unfold near_plane. vec_unfold. cbn [px py pz vx vy vz]. num_red.
    intros Heq. apply (f_equal (@vx R)) in Heq. cbn [vx] in Heq. lra.
Qed.

(** Claim C7.  At most two points are returned, and when two are returned they
    are distinct (exact arithmetic). *)
Theorem at_most_two_points_distinct (p : Point3D R) :
  (List.length (intersectionPoints (computeGeometry p)) <= 2)%nat /\
  (forall q1 q2 : Vector3 R,
      intersectionPoints (computeGeometry p) = [q1; q2] -> q1 <> q2).
Proof.
  unfold computeGeometry. cbn [intersectionPoints]. rewrite pointsResult_val.
  destruct (Rltb (1 / 1000000) (discriminant p)) eqn:Hlt.
  - split; [simpl; lia|].
    intros q1 q2 Heq. injection Heq as <- <-.
    apply Rltb_true in Hlt. rewrite discriminant_val in Hlt.
    assert (Hw : plane_offset p <> 0) by (intros Hz; rewrite Hz in Hlt; lra).
    rewrite p1_val, p2_val. intros Hpp. apply (f_equal (@vx R)) in Hpp. cbn [vx] in Hpp.
    apply Hw. unfold Rabs in Hpp. destruct (Rcase_abs (plane_offset p)); lra.
  - split; [simpl; lia|]. intros q1 q2 Heq. discriminate Heq.
Qed.

Lemma pointsResult_in_plane (p : Point3D R) :
  plane_offset p = 0 -> pointsResult p = [movablePointVec p].
Proof.
  intros Hw. rewrite pointsResult_val, discriminant_val, p1_val, Hw, Rabs_R0.
  replace (Rltb (1 / 1000000) (16384 * (0 * 0))) with false
    by (symmetry; apply Rltb_false; lra).
  unfold movablePointVec. f_equal. f_equal; field.
Qed.

(** Claim C9.  When the movable point is one of the anchors, no divisor is zero
    ([2 * d_12], [L_dir_sq], [2 * A], and the length [normalize] divides by), and
    what is reported fits a sphere of radius 0: in exact arithmetic the only
    point returned is that anchor, and the circle is reported only when the
    degenerate sphere is the third one; in binary64 every returned point is
    within 1e-6 of the anchor. *)
Theorem anchor_inputs_are_safe :
  ((2 * d_12 <> 0 /\ L_dir_sq <> 0 /\ 2 * A <> 0 /\ length (subVectors c2 c1) <> 0) /\
   (r1 TOP_R = 0 /\
    circle_exists (intersectionCircle (computeGeometry TOP_R)) = false /\
    intersectionPoints (computeGeometry TOP_R) = [TOP_POINT_POS]) /\
   (r2 LEFT_R = 0 /\
    circle_exists (intersectionCircle (computeGeometry LEFT_R)) = false /\
    intersectionPoints (computeGeometry LEFT_R) = [LEFT_POINT_POS]) /\
   (r3 FRONT_R = 0 /\
    circle_exists (intersectionCircle (computeGeometry FRONT_R)) = true /\
    intersectionPoints (computeGeometry FRONT_R) = [FRONT_POINT_POS]))%R /\
  ((PrimFloat.is_zero (2 * d_12) = false /\ PrimFloat.is_zero L_dir_sq = false /\
    PrimFloat.is_zero (2 * A) = false /\
    PrimFloat.is_zero (length (subVectors c2 c1)) = false) /\
   (circle_exists (intersectionCircle (computeGeometry TOP64)) = false /\
    forallb (close64 TOP_POINT_POS) (intersectionPoints (computeGeometry TOP64)) = true) /\
   (circle_exists (intersectionCircle (computeGeometry LEFT64)) = false /\
    forallb (close64 LEFT_POINT_POS) (intersectionPoints (computeGeometry LEFT64)) = true) /\
   (circle_exists (intersectionCircle (computeGeometry FRONT64)) = true /\
    forallb (close64 FRONT_POINT_POS) (intersectionPoints (computeGeometry FRONT64)) = true))%float.
Proof.
  split.
  - split; [|split; [|split]].
    + pose proof d_12_pos. rewrite A_val, L_dir_sq_val.
      replace (length (subVectors c2 c1)) with (d_12 (num:=R))
        by (unfold d_12; anchors_unfold; vec_unfold; num_red; f_equal; ring).
      repeat split; lra.
    + split; [|split].
      * unfold r1, rTop, TOP_R, point_of. anchors_unfold. vec_unfold. num_red.
        replace ((0 - 0) * (0 - 0) + (8 - 8) * (8 - 8) + (0 - 0) * (0 - 0)) with 0 by ring.
        apply sqrt_0.
      * apply not_true_is_false. intros Hc. apply circle_exists_val in Hc.
        unfold line_dist_sq, TOP_R, point_of, TOP_POINT_POS in Hc. cbn [px py pz vx vy vz nlit ideal] in Hc. lra.
      * unfold computeGeometry. cbn [intersectionPoints].
        rewrite pointsResult_in_plane; [reflexivity|].
        unfold plane_offset, TOP_R, point_of, TOP_POINT_POS. num_red. ring.
    + split; [|split].
      * unfold r2, rLeft, LEFT_R, point_of. anchors_unfold. vec_unfold. num_red.
        replace ((-8 - -8) * (-8 - -8) + (0 - 0) * (0 - 0) + (0 - 0) * (0 - 0)) with 0 by ring.
        apply sqrt_0.
      * apply not_true_is_false. intros Hc. apply circle_exists_val in Hc.
        unfold line_dist_sq, LEFT_R, point_of, LEFT_POINT_POS in Hc. cbn [px py pz vx vy vz nlit ideal] in Hc. lra.
      * unfold computeGeometry. cbn [intersectionPoints].
        rewrite pointsResult_in_plane; [reflexivity|].
        unfold plane_offset, LEFT_R, point_of, LEFT_POINT_POS. num_red. ring.
    + split; [|split].
      * unfold r3, rFront, FRONT_R, point_of. anchors_unfold. vec_unfold. num_red.
        replace ((0 - 0) * (0 - 0) + (0 - 0) * (0 - 0) + (8 - 8) * (8 - 8)) with 0 by ring.
        apply sqrt_0.
      * rewrite circle_exists_val.
        unfold line_dist_sq, FRONT_R, point_of, FRONT_POINT_POS. num_red. lra.
      * unfold computeGeometry. cbn [intersectionPoints].
        rewrite pointsResult_in_plane; [reflexivity|].
        unfold plane_offset, FRONT_R, point_of, FRONT_POINT_POS. num_red. ring.
  - vm_compute. repeat split; reflexivity.
Qed.

(** Claim C10.  The anchors are constants, so the direction of the radical line
    is (-64, 64, 64) and its squared length 12288 whatever the movable point;
    the test [L_dir_sq > 1e-6] always passes, so the branch for collinear centres
    is never taken; and [d_12] is [sqrt 128].  In exact arithmetic and in
    binary64. *)
Theorem radical_line_is_constant :
  (L_dir = mkVector3 (-64) 64 64 /\ L_dir_sq = 12288 /\
   ((L_dir_sq : R) >? neps)%num = true /\ d_12 = sqrt 128)%R /\
  (L_dir = mkVector3 (-64) 64 64 /\ L_dir_sq = 12288 /\
   ((L_dir_sq : float) >? neps)%num = true /\ d_12 = PrimFloat.sqrt 128)%float.
Proof.
  split.
  - split; [apply L_dir_val|]. split; [apply L_dir_sq_val|]. split; [|apply d_12_val].
    rewrite L_dir_sq_val. apply Rltb_true. cbn [neps ideal]. lra.
  - vm_compute. repeat split; reflexivity.
Qed.

(** ** The callback over the store *)

Lemma invoke_computeGeometry (num : Type) (N : Number num) (p : Point3D num) (v : Vector3 num) :
  invoke (anchors_loaded v) p = (computeGeometry p, anchors_loaded (movablePointVec p)).
Proof.
  match goal with |- ?l = ?r => let r' := norm_in r in change (l = r') end.
  unfold invoke, Scene_callback, anchors_loaded.
  cbv beta iota zeta delta [bind cell_TOP cell_LEFT cell_FRONT cell_movable].
  exec_all; reflexivity.
Qed.

(** X8.  An invocation never writes to an object it captured: whatever the three
    anchor objects hold, they hold the same afterwards, and [movablePointVec] is
    left as it was passed in. *)
Theorem invoke_leaves_captured_objects (num : Type) (N : Number num)
    (g : Captured num) (p : Point3D num) :
  snd (invoke g p) =
  mkCaptured (cell_TOP g) (cell_LEFT g) (cell_FRONT g) (movablePointVec p).
Proof.
  destruct g as [top left front mv].
  unfold invoke, Scene_callback.
  cbv beta iota zeta delta [bind cell_TOP cell_LEFT cell_FRONT cell_movable].
  exec_all; reflexivity.
Qed.

Lemma after_invocations_loaded (num : Type) (N : Number num)
    (history : list (Point3D num)) (v : Vector3 num) :
  exists v', after_invocations (anchors_loaded v) history = anchors_loaded v'.
Proof.
  revert v. induction history as [|q rest IH]; intros v.
  - exists v. reflexivity.
  - cbn [after_invocations]. rewrite invoke_computeGeometry. cbn [snd]. apply IH.
Qed.

(** Claim C8.  The callback is deterministic and keeps no state between
    invocations: whatever invocations came before, an invocation on [p] returns
    [computeGeometry p], so two invocations on the same movable point return the
    same radii, circle and points, also with other invocations in between.  The
    callback runs over the store of the objects it shares, and leaves the three
    anchors as the module loaded them. *)
Theorem same_input_same_output (num : Type) (N : Number num)
    (v : Vector3 num) (earlier between : list (Point3D num)) (p : Point3D num) :
  fst (invoke (after_invocations (anchors_loaded v) earlier) p) = computeGeometry p /\
  fst (invoke (after_invocations
                 (snd (invoke (after_invocations (anchors_loaded v) earlier) p)) between) p)
  = fst (invoke (after_invocations (anchors_loaded v) earlier) p).
Proof.
  destruct (after_invocations_loaded num N earlier v) as [v1 ->].
  rewrite invoke_computeGeometry. cbn [fst snd].
  destruct (after_invocations_loaded num N between (movablePointVec p)) as [v2 ->].
  rewrite invoke_computeGeometry. split; reflexivity.
Qed.

(** ** Further properties of the geometry *)

Lemma p1_p2_cases (p : Point3D R) :
  (0 <= plane_offset p -> p1 p = movablePointVec p /\ p2 p = mirror p) /\
  (plane_offset p <= 0 -> p1 p = mirror p /\ p2 p = movablePointVec p).
Proof.
  rewrite p1_val, p2_val. unfold mirror, movablePointVec. split; intros Hw.
  - rewrite (Rabs_pos_eq _ Hw). split; f_equal; field.
  - rewrite (Rabs_left1 _ Hw). split; f_equal; field.
Qed.

Lemma two_points_iff (p : Point3D R) :
  Rltb (1 / 1000000) (discriminant p) = true <-> / 128000 < Rabs (plane_offset p).
Proof.
  rewrite Rltb_true, discriminant_val.
  pose proof (Rabs_pos (plane_offset p)) as Hpos.
  replace (plane_offset p * plane_offset p)
    with (Rabs (plane_offset p) * Rabs (plane_offset p))
    by (unfold Rabs; destruct (Rcase_abs (plane_offset p)); ring).
  split; intros Hlt; nra.
Qed.

(** X1.  The returned points in terms of the movable point [P] and of its
    signed offset [w] from the plane of the anchors (exact arithmetic): [P] and
    its mirror image, [P] first, when [w > 1/128000]; the mirror image first
    when [w < -1/128000]; only [P] when [0 <= w <= 1/128000]; only the mirror
    image when [-1/128000 <= w <= 0]. *)
Theorem points_in_terms_of_movable_point (p : Point3D R) :
  (/ 128000 < plane_offset p ->
   intersectionPoints (computeGeometry p) = [movablePointVec p; mirror p]) /\
  (plane_offset p < - / 128000 ->
   intersectionPoints (computeGeometry p) = [mirror p; movablePointVec p]) /\
  (0 <= plane_offset p <= / 128000 ->
   intersectionPoints (computeGeometry p) = [movablePointVec p]) /\
  (- / 128000 <= plane_offset p <= 0 ->
   intersectionPoints (computeGeometry p) = [mirror p]).
Proof.
  unfold computeGeometry. cbn [intersectionPoints]. rewrite pointsResult_val.
  pose proof (two_points_iff p) as Hiff.
  destruct (p1_p2_cases p) as [Hpos Hneg].
  split; [|split; [|split]]; intros Hw.
  - destruct (Hpos ltac:(lra)) as [-> ->].
    replace (Rltb _ _) with true; [reflexivity|].
    symmetry. apply Hiff. rewrite Rabs_pos_eq; lra.
  - destruct (Hneg ltac:(lra)) as [-> ->].
    replace (Rltb _ _) with true; [reflexivity|].
    symmetry. apply Hiff. rewrite Rabs_left1; lra.
  - destruct (Hpos ltac:(lra)) as [-> _].
    replace (Rltb _ _) with false; [reflexivity|].
    symmetry. apply not_true_is_false. intros Ht. apply Hiff in Ht.
    rewrite Rabs_pos_eq in Ht; lra.
  - destruct (Hneg ltac:(lra)) as [-> _].
    replace (Rltb _ _) with false; [reflexivity|].
    symmetry. apply not_true_is_false. intros Ht. apply Hiff in Ht.
    rewrite Rabs_left1 in Ht; lra.
Qed.

Lemma In_pointsResult (p : Point3D R) (q : Vector3 R) :
  In q (pointsResult p) -> q = movablePointVec p \/ q = mirror p.
Proof.
  rewrite pointsResult_val. destruct (p1_p2_cases p) as [Hpos Hneg].
  assert (Hc : (p1 p = movablePointVec p /\ p2 p = mirror p) \/
               (p1 p = mirror p /\ p2 p = movablePointVec p)).
  { destruct (Rle_dec 0 (plane_offset p)); [left; apply Hpos; lra | right; apply Hneg; lra]. }
  intros Hin.
  assert (Hq : q = p1 p \/ q = p2 p).
  { destruct (Rltb (1 / 1000000) (discriminant p)); cbn [In] in Hin.
    - destruct Hin as [<- | [<- | []]]; auto.
    - destruct Hin as [<- | []]; auto. }
  destruct Hc as [[E1 E2] | [E1 E2]]; rewrite E1, E2 in Hq; tauto.
Qed.

(** X2.  In exact arithmetic, a returned point other than the movable point is
    the reflection of the movable point in the plane through the three anchors:
    the segment joining the two is orthogonal to both edges of the triangle of
    the anchors, and its midpoint is in the plane of that triangle. *)
Theorem other_point_is_reflection (p : Point3D R) (q : Vector3 R) :
  In q (intersectionPoints (computeGeometry p)) ->
  q <> movablePointVec p ->
  dot (subVectors q (movablePointVec p)) (subVectors LEFT_POINT_POS TOP_POINT_POS) = 0 /\
  dot (subVectors q (movablePointVec p)) (subVectors FRONT_POINT_POS TOP_POINT_POS) = 0 /\
  dot (subVectors (midpoint q (movablePointVec p)) TOP_POINT_POS)
      (crossVectors (subVectors LEFT_POINT_POS TOP_POINT_POS)
                    (subVectors FRONT_POINT_POS TOP_POINT_POS)) = 0.
Proof.
  unfold computeGeometry. cbn [intersectionPoints]. intros Hin Hne.
  destruct (In_pointsResult p q Hin) as [-> | ->]; [exfalso; apply Hne; reflexivity|].
  unfold midpoint, mirror, movablePointVec, plane_offset.
  anchors_unfold. vec_unfold. num_red. repeat split; field.
Qed.

Lemma other_point_is_reflection_witness :
  dot (subVectors (mirror originR) (movablePointVec originR))
      (subVectors LEFT_POINT_POS TOP_POINT_POS) = 0.
Proof.
  apply (other_point_is_reflection originR (mirror originR)).
  - unfold computeGeometry. cbn [intersectionPoints]. rewrite pointsResult_val.
    left. apply (proj2 (p1_p2_cases originR)).
    unfold plane_offset, originR. cbn [px py pz]. lra.
  - unfold mirror, movablePointVec, plane_offset, originR. cbn [px py pz].
    intros He. apply (f_equal (@vx R)) in He. cbn [vx] in He. lra.
Defined.

(** X3.  In exact arithmetic the circle is reported exactly when the movable
    point is off the line through the first two anchors (z = 0, y = x + 8).  In
    binary64 the rounded radii can make the program report a circle for a point
    of that line, as at (1, 9, 0). *)
Theorem circle_exists_iff_off_center_line :
  (forall p : Point3D R,
      circle_exists (intersectionCircle (computeGeometry p)) = true <->
      ~ (pz p = 0 /\ py p = px p + 8)) /\
  (pz tangent64 = 0%float /\ py tangent64 = PrimFloat.add (px tangent64) 8 /\
   circle_exists (intersectionCircle (computeGeometry tangent64)) = true).
Proof.
  split; [|vm_compute; repeat split; reflexivity].
  intros p.
  rewrite circle_exists_val. unfold line_dist_sq.
  pose proof (Rle_0_sqr (pz p)) as H1. pose proof (Rle_0_sqr (px p - py p + 8)) as H2.
  unfold Rsqr in *. split.
  - intros Hpos [Hz Hy]. rewrite Hz, Hy in Hpos.
    replace (px p - (px p + 8) + 8) with 0 in Hpos by ring. lra.
  - intros Hoff.
    destruct (Req_dec (pz p) 0) as [Hz | Hz].
    + destruct (Req_dec (px p - py p + 8) 0) as [Hy | Hy].
      * exfalso. apply Hoff. split; lra.
      * assert (0 < (px p - py p + 8) * (px p - py p + 8)) by nra. lra.
    + assert (0 < pz p * pz p) by nra. lra.
Qed.

(** X4.  When the circle is reported, the movable point is on it: it is at
    distance [radius] from the centre, in the plane through the centre
    orthogonal to the normal. *)
Theorem movable_point_on_circle (p : Point3D R) :
  circle_exists (intersectionCircle (computeGeometry p)) = true ->
  distanceTo (center (intersectionCircle (computeGeometry p))) (movablePointVec p) =
    radius (intersectionCircle (computeGeometry p)) /\
  dot (subVectors (movablePointVec p) (center (intersectionCircle (computeGeometry p))))
      (normal (intersectionCircle (computeGeometry p))) = 0.
Proof.
  intros Hex. pose proof (proj1 (circle_exists_val p) Hex) as Hpos.
  rewrite (circle_fields_when_exists p Hex). cbn [radius center normal].
  pose proof d_12_pos as Hd. pose proof d_12_sq as Hdd.
  pose proof (a_times_d_12 p) as Ha. pose proof (a_sq p) as Haa.
  assert (Hid : (1 / d_12) * d_12 = 1) by (field; lra).
  set (k := 1 / d_12) in *.
  assert (Hkk : k * k = 1 / 128).
  { assert (128 * (k * k) = 1).
    { rewrite <- Hdd. transitivity ((k * d_12) * (k * d_12)); [ring|]. rewrite Hid. ring. }
    lra. }
  assert (Hak : a p * k * 128 = (64 - 8 * (px p + py p))).
  { rewrite <- Ha, <- Hdd. transitivity (a p * d_12 * (k * d_12)); [ring|].
    rewrite Hid. ring. }
  assert (Hav : a p = (64 - 8 * (px p + py p)) * k).
  { rewrite a_val. unfold k. field. lra. }
  split.
  - apply distanceTo_of_sq.
    + rewrite h_val. apply sqrt_pos.
    + transitivity (line_dist_sq p); [|rewrite h_val; symmetry; apply sqrt_sqrt; lra].
      unfold center_. rewrite direction_val. fold k.
      unfold movablePointVec. anchors_unfold. vec_unfold. num_red.
      transitivity (128 * (k * k) * (a p * a p)
                    + (a p * k * 128) * ((px p + py p - 8) / 8)
                    + (px p * px p + (py p - 8) * (py p - 8) + pz p * pz p)); [field|].
      rewrite Hkk, Haa, Hak. unfold line_dist_sq. field.
  - rewrite planeNormal_val. unfold center_. rewrite direction_val. fold k.
    unfold movablePointVec. anchors_unfold. vec_unfold. num_red.
    transitivity (- 8 * k * (px p + py p - 8) - 128 * (k * k) * a p); [ring|].
    rewrite Hkk, Hav. field.
Qed.

Lemma movable_point_on_circle_witness :
  distanceTo (center (intersectionCircle (computeGeometry originR))) (movablePointVec originR) =
    radius (intersectionCircle (computeGeometry originR)).
Proof.
  apply (movable_point_on_circle originR).
  apply circle_exists_val. unfold line_dist_sq, originR. cbn [px py pz]. lra.
Defined.

Lemma length_sq (v : Vector3 R) : length v * length v = lengthSq v.
Proof. unfold length, lengthSq. num_red. apply sqrt_sumsq. Qed.

Lemma normalize_has_unit_length (v : Vector3 R) :
  v <> mkVector3 0 0 0 -> length (normalize v) = 1.
Proof.
  intros Hv.
  assert (Hsq : 0 < lengthSq v).
  { unfold lengthSq. num_red. destruct v as [x y z]. cbn [vx vy vz].
    destruct (Req_dec x 0) as [Hx|Hx]; [|nra].
    destruct (Req_dec y 0) as [Hy|Hy]; [|nra].
    destruct (Req_dec z 0) as [Hz|Hz]; [|nra].
    exfalso. apply Hv. subst. reflexivity. }
  assert (Hl : 0 < length v).
  { pose proof (length_sq v) as Hll.
    assert (0 <= length v) by (unfold length; num_red; apply sqrt_pos).
    nra. }
  unfold normalize. num_red. rewrite (Rtruthy_pos _ Hl).
  set (l := length v) in *.
  unfold length, divideScalar, multiplyScalar. num_red.
  replace (vx v * (1 / l) * (vx v * (1 / l)) + vy v * (1 / l) * (vy v * (1 / l)) +
           vz v * (1 / l) * (vz v * (1 / l)))
    with ((vx v * vx v + vy v * vy v + vz v * vz v) / (l * l)) by (field; lra).
  fold (lengthSq v). change (vx v * vx v + vy v * vy v + vz v * vz v) with (lengthSq v).
  rewrite <- (length_sq v). fold l.
  replace (l * l / (l * l)) with 1 by (field; lra). apply sqrt_1.
Qed.

(** X5.  The plane normal is a unit vector, and the centre computed for the
    circle is at distance [|a|] from the first anchor. *)
Theorem circle_center_offset (p : Point3D R) :
  length (planeNormal : Vector3 R) = 1 /\
  distanceTo c1 (center_ p) = Rabs (a p).
Proof.
  split.
  - unfold planeNormal. apply normalize_has_unit_length.
    anchors_unfold. vec_unfold. num_red. intros He.
    apply (f_equal (@vx R)) in He. cbn [vx] in He. lra.
  - apply distanceTo_of_sq; [apply Rabs_pos|].
    pose proof d_12_pos as Hd. pose proof d_12_sq as Hdd.
    assert (Hid : (1 / d_12) * d_12 = 1) by (field; lra).
    unfold center_. rewrite direction_val. set (k := 1 / d_12) in *.
    assert (Hkk : k * k = 1 / 128).
    { assert (128 * (k * k) = 1).
      { rewrite <- Hdd. transitivity ((k * d_12) * (k * d_12)); [ring|]. rewrite Hid. ring. }
      lra. }
    anchors_unfold. vec_unfold. num_red.
    transitivity (128 * (k * k) * (a p * a p)); [ring|]. rewrite Hkk.
    replace (Rabs (a p) * Rabs (a p)) with (a p * a p)
      by (unfold Rabs; destruct (Rcase_abs (a p)); ring).
    field.
Qed.

(** X6.  The line on which the points are sought: [L_dir] is orthogonal to both
    plane normals; [L_p0] is on both radical planes and is the point of the line
    nearest the origin; the movable point is on both radical planes. *)
Theorem radical_line_point (p : Point3D R) :
  (dot L_dir n_A = 0 /\ dot L_dir n_B = 0) /\
  (dot n_A (L_p0 p) = d_A p /\ dot n_B (L_p0 p) = d_B p /\ dot (L_p0 p) L_dir = 0) /\
  (dot n_A (movablePointVec p) = d_A p /\ dot n_B (movablePointVec p) = d_B p).
Proof.
  rewrite L_p0_val, n_A_val, n_B_val, L_dir_val, d_A_val, d_B_val.
  unfold movablePointVec, plane_offset. vec_unfold. num_red.
  repeat split; field.
Qed.

Lemma sumsq_eq_0 (u v w : R) :
  u * u + v * v + w * w = 0 -> u = 0 /\ v = 0 /\ w = 0.
Proof.
  intros Hs.
  pose proof (Rle_0_sqr u) as Hu. pose proof (Rle_0_sqr v) as Hv.
  pose proof (Rle_0_sqr w) as Hw. unfold Rsqr in *.
  assert (Hu0 : u * u = 0) by lra. assert (Hv0 : v * v = 0) by lra.
  assert (Hw0 : w * w = 0) by lra.
  apply Rmult_integral in Hu0, Hv0, Hw0. tauto.
Qed.

Lemma distanceTo_zero_iff (u v : Vector3 R) : distanceTo u v = 0 <-> v = u.
Proof.
  pose proof (distanceTo_sq u v) as Hs. split.
  - intros Hz. rewrite Hz in Hs. unfold distanceToSquared in Hs. cbn zeta in Hs.
    cbn [nadd nsub nmul ideal] in Hs.
    assert (Hs' : (vx u - vx v) * (vx u - vx v) + (vy u - vy v) * (vy u - vy v) +
                  (vz u - vz v) * (vz u - vz v) = 0) by lra.
    apply sumsq_eq_0 in Hs'. destruct Hs' as (Hx & Hy & Hz').
    apply Vector3_eq; lra.
  - intros ->. apply distanceTo_of_sq; [lra|].
    unfold distanceToSquared. num_red. ring.
Qed.

(** X7.  A radius is 0 exactly when the movable point is at that anchor. *)
Theorem radius_zero_iff_at_anchor (p : Point3D R) :
  (radiusTop (computeGeometry p) = 0 <-> movablePointVec p = TOP_POINT_POS) /\
  (radiusLeft (computeGeometry p) = 0 <-> movablePointVec p = LEFT_POINT_POS) /\
  (radiusFront (computeGeometry p) = 0 <-> movablePointVec p = FRONT_POINT_POS).
Proof.
  unfold computeGeometry. cbn [radiusTop radiusLeft radiusFront].
  unfold rTop, rLeft, rFront. repeat split; apply distanceTo_zero_iff.
Qed.

(** ** The slider state *)

Lemma coordinate_after_change (num : Type) (axis other : Axis)
    (value : num) (prev : Point3D num) :
  coordinate other (handleSliderChange axis value prev) =
  if Axis_eqb axis other then value else coordinate other prev.
Proof. destruct axis, other; reflexivity. Qed.

(** X9.  After any sequence of slider changes, each coordinate of the point is
    the value of the last change made to its axis, or the coordinate it started
    with when its axis was never changed. *)
Theorem after_changes_last_wins (num : Type) (changes : list (Axis * num))
    (point : Point3D num) (axis : Axis) :
  coordinate axis (after_changes point changes) =
  match last_change axis changes with
  | Some v => v
  | None => coordinate axis point
  end.
Proof.
  revert point. induction changes as [|[a v] rest IH]; intros point.
  - reflexivity.
  - cbn [after_changes last_change]. rewrite IH.
    destruct (last_change axis rest); [reflexivity|].
    rewrite coordinate_after_change. destruct (Axis_eqb a axis); reflexivity.
Qed.

(** X10.  Changes to two different axes commute. *)
Theorem handleSliderChange_commutes (num : Type) (a b : Axis) (v w : num)
    (prev : Point3D num) :
  a <> b ->
  handleSliderChange a v (handleSliderChange b w prev) =
  handleSliderChange b w (handleSliderChange a v prev).
Proof. intros Hab. destruct a, b; try reflexivity; exfalso; apply Hab; reflexivity. Qed.

Lemma handleSliderChange_commutes_witness :
  handleSliderChange axis_x 1%Z (handleSliderChange axis_z 2%Z (mkPoint3D 0%Z 0%Z 0%Z)) =
  handleSliderChange axis_z 2%Z (handleSliderChange axis_x 1%Z (mkPoint3D 0%Z 0%Z 0%Z)).
Proof. apply handleSliderChange_commutes. discriminate. Defined.

(** In binary64 too, the point 2^-18 above the first anchor gives one point, and
    it is further than 1e-6 from the point at [t = -B / (2 A)]. *)
Example tangent_point_not_at_vertex_binary64 :
  List.length (pointsResult near_plane64) = 1%nat /\
  forallb (close64 (line_point near_plane64
                      (PrimFloat.div (PrimFloat.opp (B near_plane64))
                                     (PrimFloat.mul 2 A))))
          (pointsResult near_plane64) = false.
Proof. vm_compute. split; reflexivity. Qed.

(** The initial state of [App], the origin, in binary64: radii 8, the circle
    exists, two points. *)
Example scenario_A_binary64 :
  (radiusTop (computeGeometry origin64), radiusLeft (computeGeometry origin64),
   radiusFront (computeGeometry origin64)) = (8%float, 8%float, 8%float) /\
  circle_exists (intersectionCircle (computeGeometry origin64)) = true /\
  List.length (intersectionPoints (computeGeometry origin64)) = 2%nat.
Proof. vm_compute. repeat split; reflexivity. Qed.
